(** * species_management/get_species.py

    A shallow embedding of the species query script and the proofs of its
    specification.  Python floats are IEEE-754 binary64 numbers and are
    embedded as Rocq's primitive floats, whose operations are specified by
    [SpecFloat]; dictionaries keyed by strings are [gmap string _]; the call
    of the external client and [print] are the two events of a small
    interaction type. *)

From Stdlib Require Import Floats ZArith Lia.
From stdpp Require Import gmap strings list fin_maps.

Set Default Proof Using "Type".
#[local] Set Warnings "-register-all".

(** ** Binary64 classes

    Only signs, zeros and NaN-ness matter for the script: which quotients
    and square roots are NaN, zero, negative or non-negative. *)

Module B64.

(** [signed s x]: [x] is a zero, a finite number or an infinity whose sign
    bit is [s] (so it is not NaN). *)
Definition signed (s : bool) (x : spec_float) : Prop :=
  match x with
  | S754_zero s' | S754_infinity s' | S754_finite s' _ _ => s' = s
  | S754_nan => False
  end.

(** [nonneg x]: [x] compares [0 <= x]; both zeros are in. *)
Definition nonneg (x : spec_float) : Prop :=
  match x with
  | S754_zero _ | S754_infinity false | S754_finite false _ _ => True
  | _ => False
  end.

(** [negative x]: [x] compares [x < 0]; no zero is in. *)
Definition negative (x : spec_float) : Prop :=
  match x with
  | S754_infinity true | S754_finite true _ _ => True
  | _ => False
  end.

Definition is_zero (x : spec_float) : Prop :=
  match x with S754_zero _ => True | _ => False end.

End B64.

(** ** Python values, exceptions and effects *)

(** The values the script handles: the decoded JSON of the response and the
    keyword arguments of the request.  Dictionaries are keyed by [str]. *)
Inductive pyval : Type :=
  | PyNone
  | PyBool (b : bool)
  | PyInt (z : Z)
  | PyFloat (f : float)
  | PyStr (s : string)
  | PyList (l : list pyval)
  | PyDict (d : gmap string pyval).

(** The exceptions the script's own operations raise: [math.sqrt] outside
    its domain, a missing key, subscripting or iterating a value that does
    not support it, and [.get] on a value that has no such method. *)
Inductive pyexc : Type :=
  | ValueError
  | KeyError (key : string)
  | TypeError
  | AttributeError.

(** A pure Python expression returns a value or raises. *)
Inductive result (A : Type) : Type :=
  | Returns (a : A)
  | Raises (e : pyexc).
Arguments Returns {A} a.
Arguments Raises {A} e.

#[export] Instance result_ret : MRet result := λ A a, Returns a.
#[export] Instance result_bind : MBind result := λ A B f r,
  match r with
  | Returns a => f a
  | Raises e => Raises e
  end.

(** A Python statement sequence is a tree of its interactions: it returns,
    raises, calls [get_observation_species_counts] with keyword arguments and
    goes on with the value the client returned, or prints a value and goes
    on. *)
Inductive prog (A : Type) : Type :=
  | Ret (a : A)
  | Raise (e : pyexc)
  | GetCounts (kwargs : gmap string pyval) (k : pyval → prog A)
  | Print (v : pyval) (k : prog A).
Arguments Ret {A} a.
Arguments Raise {A} e.
Arguments GetCounts {A} kwargs k.
Arguments Print {A} v k.

Fixpoint prog_bind_def {A B} (f : A → prog B) (p : prog A) : prog B :=
  match p with
  | Ret a => f a
  | Raise e => Raise e
  | GetCounts kwargs k => GetCounts kwargs (λ resp, prog_bind_def f (k resp))
  | Print v k => Print v (prog_bind_def f k)
  end.

#[export] Instance prog_ret : MRet prog := λ A a, Ret a.
#[export] Instance prog_bind : MBind prog := λ A B f p, prog_bind_def f p.

Definition lift {A} (r : result A) : prog A :=
  match r with
  | Returns a => Ret a
  | Raises e => Raise e
  end.

Definition get_observation_species_counts (kwargs : gmap string pyval)
  : prog pyval := GetCounts kwargs Ret.

Definition print (v : pyval) : prog unit := Print v (Ret tt).

(** [run client p] plays [p] against a client: what was printed, in order,
    and how [p] ended.  An exception of the client propagates. *)
Fixpoint run {A} (client : gmap string pyval → result pyval) (p : prog A)
  : list pyval * result A :=
  match p with
  | Ret a => ([], Returns a)
  | Raise e => ([], Raises e)
  | GetCounts kwargs k =>
      match client kwargs with
      | Returns resp => run client (k resp)
      | Raises e => ([], Raises e)
      end
  | Print v k => let '(out, r) := run client k in (v :: out, r)
  end.

(** *** Operations on values *)

(** A dict display [{k1: v1, ..., kn: vn}]: entries are stored left to
    right, a later one replacing an earlier one with the same key. *)
Definition py_dict (items : list (string * pyval)) : gmap string pyval :=
  foldl (λ d kv, <[kv.1 := kv.2]> d) ∅ items.

(** [v[key]] for a [str] key. *)
Definition py_getitem (v : pyval) (key : string) : result pyval :=
  match v with
  | PyDict d =>
      match d !! key with
      | Some x => Returns x
      | None => Raises (KeyError key)
      end
  | _ => Raises TypeError
  end.

(** [v.get(key)]: only a dict has the method. *)
Definition py_get (v : pyval) (key : string) : result pyval :=
  match v with
  | PyDict d => Returns (default PyNone (d !! key))
  | _ => Raises AttributeError
  end.

(** The items [for r in v] goes through.  A dict yields its keys; the model
    lists them in key order, not insertion order. *)
Definition py_iter (v : pyval) : result (list pyval) :=
  match v with
  | PyList l => Returns l
  | PyStr s => Returns ((λ c, PyStr (String c EmptyString)) <$> String.list_ascii_of_string s)
  | PyDict d => Returns ((λ kv, PyStr kv.1) <$> map_to_list d)
  | _ => Raises TypeError
  end.

(** Truth value testing. *)
Definition py_truthy (v : pyval) : bool :=
  match v with
  | PyNone => false
  | PyBool b => b
  | PyInt z => negb (z =? 0)%Z
  | PyFloat f => negb (f =? 0)%float
  | PyStr s => negb (String.eqb s "")
  | PyList l => negb (Nat.eqb (length l) 0)
  | PyDict d => negb (Nat.eqb (size d) 0)
  end.

(** ** The script *)

(** [math.pi], the binary64 number nearest to π. *)
Definition math_pi : float := 0x1.921fb54442d18p+1%float.

(** [math.sqrt]: the correctly rounded square root; a NaN result for an
    argument that is not NaN is the domain error. *)
Definition math_sqrt (x : float) : result float :=
  let r := PrimFloat.sqrt x in
  if is_nan r && negb (is_nan x) then Raises ValueError else Returns r.

Definition area_to_radius_km (area_km2 : float) : result float :=
  math_sqrt (area_km2 / math_pi).

(** The keyword arguments of the request. *)
Definition query_params (lat lng radius : float)
    (threatened introduced : option bool) : gmap string pyval :=
  let params := py_dict [
    ("lat", PyFloat lat);
    ("lng", PyFloat lng);
    ("radius", PyFloat radius);
    ("quality_grade", PyStr "research");
    ("per_page", PyInt 200);
    ("page", PyStr "all")
  ] in
  let params :=
    match threatened with
    | Some b => <["threatened" := PyBool b]> params
    | None => params
    end in
  let params :=
    match introduced with
    | Some b => <["introduced" := PyBool b]> params
    | None => params
    end in
  params.

(** The element expression of the list comprehension, for one row [r]. *)
Definition species_record (r : pyval) : result pyval :=
  taxon_id ← (taxon ← py_getitem r "taxon"; py_getitem taxon "id");
  scientific_name ← (taxon ← py_getitem r "taxon"; py_getitem taxon "name");
  common_name ← (taxon ← py_getitem r "taxon"; py_get taxon "preferred_common_name");
  rank ← (taxon ← py_getitem r "taxon"; py_getitem taxon "rank");
  obs_count ← py_getitem r "count";
  mret (PyDict (py_dict [
    ("taxon_id", taxon_id);
    ("scientific_name", scientific_name);
    ("common_name", common_name);
    ("rank", rank);
    ("obs_count", obs_count)
  ])).

(** The list comprehension over [resp["results"]]. *)
Definition species_records (resp : pyval) : result (list pyval) :=
  results ← py_getitem resp "results";
  rows ← py_iter results;
  mapM species_record rows.

Definition fetch_species (lat lng area_km2 : float)
    (threatened introduced : option bool) : prog (list pyval) :=
  radius ← lift (area_to_radius_km area_km2);
  resp ← get_observation_species_counts
           (query_params lat lng radius threatened introduced);
  lift (species_records resp).

(** [s["common_name"] or s["scientific_name"]]: the second subscript is
    evaluated only when the first value is falsy. *)
Definition display_name (s : pyval) : result pyval :=
  common_name ← py_getitem s "common_name";
  if py_truthy common_name then mret common_name
  else py_getitem s "scientific_name".

(** [for s in records: print(s["common_name"] or s["scientific_name"])] *)
Fixpoint print_names (records : list pyval) : prog unit :=
  match records with
  | [] => mret tt
  | s :: records' =>
      name ← lift (display_name s);
      print name;;
      print_names records'
  end.

(** 59.9139 and 10.7522, as the binary64 numbers the literals denote. *)
Definition LAT : float := 0x1.df4faacd9e83ep+5%float.
Definition LNG : float := 0x1.581205bc01a37p+3%float.

Definition newline : string := String (Ascii.ascii_of_nat 10) EmptyString.

(** The entry point.  The literal [10] is an [int]; the division in
    [area_to_radius_km] converts it to the float [10.0]. *)
Definition main : prog unit :=
  threatened ← fetch_species LAT LNG 10 (Some true) None;
  introduced ← fetch_species LAT LNG 10 None (Some true);
  print (PyStr (newline +:+ "Threatened species:"));;
  print_names threatened;;
  print (PyStr (newline +:+ "Introduced species:"));;
  print_names introduced.

(** A row of the documented shape: a [taxon] object holding [id], [name]
    and [rank], and a [count]. *)
Definition row_fields (r t : gmap string pyval)
    (id name rank count : pyval) : Prop :=
  r !! "taxon" = Some (PyDict t)
  ∧ r !! "count" = Some count
  ∧ t !! "id" = Some id
  ∧ t !! "name" = Some name
  ∧ t !! "rank" = Some rank.

(** The response of the specification's example and the list it is
    normalised to. *)
Definition mock_response : pyval :=
  PyDict (py_dict [
    ("results", PyList [
      PyDict (py_dict [
        ("taxon", PyDict (py_dict [
           ("id", PyInt 1);
           ("name", PyStr "Vulpes vulpes");
           ("rank", PyStr "species");
           ("preferred_common_name", PyStr "Red fox")
         ]));
        ("count", PyInt 5)
      ])
    ])
  ]).

Definition mock_records : list pyval := [
  PyDict (py_dict [
    ("taxon_id", PyInt 1);
    ("scientific_name", PyStr "Vulpes vulpes");
    ("common_name", PyStr "Red fox");
    ("rank", PyStr "species");
    ("obs_count", PyInt 5)
  ])
].

(** *** Vocabulary of the further properties *)

(** The keys of a request: the six fixed ones and a filter key for each
    filter that is not [None]. *)
Definition request_keys (threatened introduced : option bool) : gset string :=
  {[ "lat"; "lng"; "radius"; "quality_grade"; "per_page"; "page" ]}
  ∪ (if threatened is Some _ then {[ "threatened" ]} else ∅)
  ∪ (if introduced is Some _ then {[ "introduced" ]} else ∅).

(** The keys of a record. *)
Definition record_keys : gset string :=
  {[ "taxon_id"; "scientific_name"; "common_name"; "rank"; "obs_count" ]}.

(** The record built from the fields of a row. *)
Definition record_of (id name common_name rank count : pyval)
  : gmap string pyval :=
  py_dict [
    ("taxon_id", id);
    ("scientific_name", name);
    ("common_name", common_name);
    ("rank", rank);
    ("obs_count", count)
  ].

(** The line [print_names] prints for a record. *)
Definition shown_name (common_name scientific_name : pyval) : pyval :=
  if py_truthy common_name then common_name else scientific_name.

(** The two headers of the entry point. *)
Definition threatened_header : pyval :=
  PyStr (newline +:+ "Threatened species:").

Definition introduced_header : pyval :=
  PyStr (newline +:+ "Introduced species:").

(** The two requests of the entry point. *)
Definition threatened_query : gmap string pyval :=
  query_params LAT LNG (PrimFloat.sqrt (10 / math_pi)) (Some true) None.

Definition introduced_query : gmap string pyval :=
  query_params LAT LNG (PrimFloat.sqrt (10 / math_pi)) None (Some true).

(** [strictly_positive x]: [x] compares [0 < x]. *)
Definition strictly_positive (x : spec_float) : Prop :=
  match x with
  | S754_infinity false | S754_finite false _ _ => True
  | _ => False
  end.

(** Rows and records of the examples. *)
Definition lynx_taxon : gmap string pyval :=
  py_dict [("id", PyInt 7); ("name", PyStr "Lynx lynx"); ("rank", PyStr "species")].

Definition lynx_row : gmap string pyval :=
  py_dict [("taxon", PyDict lynx_taxon); ("count", PyInt 2)].

Definition lynx_record : gmap string pyval :=
  record_of (PyInt 7) (PyStr "Lynx lynx") PyNone (PyStr "species") (PyInt 2).

Definition no_count_row : gmap string pyval :=
  py_dict [("taxon", PyDict lynx_taxon)].

Definition fox_taxon : gmap string pyval :=
  py_dict [
    ("id", PyInt 1);
    ("name", PyStr "Vulpes vulpes");
    ("rank", PyStr "species");
    ("preferred_common_name", PyStr "Red fox")
  ].

Definition fox_row : gmap string pyval :=
  py_dict [("taxon", PyDict fox_taxon); ("count", PyInt 5)].

Definition fox_record : gmap string pyval :=
  record_of (PyInt 1) (PyStr "Vulpes vulpes") (PyStr "Red fox")
    (PyStr "species") (PyInt 5).

(** ** Binary64 facts

    Signs and zeros through rounding, division and square root, read on
    [SpecFloat]. *)

Module B64Facts.
Import B64.

Lemma shr_1_nonneg mrs : (0 <= shr_m mrs)%Z → (0 <= shr_m (shr_1 mrs))%Z.
Proof.
  destruct mrs as [m r s]; simpl.
  destruct m as [|[p|p|]|p]; simpl; lia.
Qed.

Lemma iter_shr_1_nonneg p mrs :
  (0 <= shr_m mrs)%Z → (0 <= shr_m (SpecFloat.iter_pos shr_1 p mrs))%Z.
Proof.
  revert mrs. induction p as [p IH|p IH|]; intros mrs H; simpl.
  - by apply IH, IH, shr_1_nonneg.
  - by apply IH, IH.
  - by apply shr_1_nonneg.
Qed.

Lemma shr_nonneg mrs e n :
  (0 <= shr_m mrs)%Z → (0 <= shr_m (shr mrs e n).1)%Z.
Proof.
  intros H. destruct n; simpl; [exact H| |exact H].
  by apply iter_shr_1_nonneg.
Qed.

Lemma shr_record_of_loc_m m l : shr_m (shr_record_of_loc m l) = m.
Proof. by destruct l as [|[]]. Qed.

Lemma shr_fexp_nonneg prec emax m e l :
  (0 <= m)%Z → (0 <= shr_m (shr_fexp prec emax m e l).1)%Z.
Proof.
  intros H. unfold shr_fexp. apply shr_nonneg.
  by rewrite shr_record_of_loc_m.
Qed.

Lemma round_nearest_even_nonneg m l :
  (0 <= m)%Z → (0 <= round_nearest_even m l)%Z.
Proof.
  intros H. destruct l as [|[]]; simpl; try lia.
  destruct (IntDef.Z.even m); lia.
Qed.

(** Rounding a non-negative mantissa keeps the sign it is given and never
    produces NaN. *)
Lemma binary_round_aux_signed prec emax s m e l :
  (0 <= m)%Z → signed s (binary_round_aux prec emax s m e l).
Proof.
  intros H. unfold binary_round_aux.
  pose proof (shr_fexp_nonneg prec emax m e l H) as H1.
  destruct (shr_fexp prec emax m e l) as [mrs' e']; simpl in H1.
  pose proof (shr_fexp_nonneg prec emax _ e' loc_Exact
    (round_nearest_even_nonneg _ (loc_of_shr_record mrs') H1)) as H2.
  destruct (shr_fexp prec emax _ e' loc_Exact) as [mrs'' e'']; simpl in H2.
  destruct (shr_m mrs''); [done| |lia].
  by destruct (e'' <=? emax - prec)%Z.
Qed.

Lemma div_core_nonneg prec emax m1 e1 m2 e2 :
  (0 <= (SFdiv_core_binary prec emax (Z.pos m1) e1 (Z.pos m2) e2).1.1)%Z.
Proof.
  unfold SFdiv_core_binary.
  set (s := (e1 - e2 - _)%Z).
  set (m' := match s with 0%Z => _ | Z.pos _ => _ | Z.neg _ => _ end).
  assert (0 <= m')%Z as Hm'.
  { subst m'. destruct s; [lia| |lia]. apply Z.shiftl_nonneg. lia. }
  pose proof (Z.div_eucl_eq m' (Z.pos m2) ltac:(lia)) as Heq.
  pose proof (Z.mod_pos_bound m' (Z.pos m2) ltac:(lia)) as Hmod.
  unfold Z.modulo in Hmod.
  change IntDef.Z.div_eucl with Z.div_eucl.
  destruct (Z.div_eucl m' (Z.pos m2)) as [q r]; simpl. nia.
Qed.

Lemma sqrt_core_nonneg prec emax m e :
  (0 <= (SFsqrt_core_binary prec emax (Z.pos m) e).1.1)%Z.
Proof.
  unfold SFsqrt_core_binary.
  set (s := (e - 2 * _)%Z).
  set (m' := match s with 0%Z => _ | Z.pos _ => _ | Z.neg _ => _ end).
  change IntDef.Z.sqrtrem with Z.sqrtrem.
  pose proof (Z.sqrtrem_sqrt m') as Hs.
  pose proof (Z.sqrt_nonneg m') as Hn.
  destruct (Z.sqrtrem m') as [q r]; simpl in *. lia.
Qed.

(** Division by a positive finite number: the quotient has the sign of the
    dividend and is not NaN. *)
Lemma SFdiv_signed prec emax x my ey s :
  signed s x →
  signed s (SFdiv prec emax x (S754_finite false my ey)).
Proof.
  destruct x as [sx|sx| |sx mx ex]; simpl; try done.
  - intros <-. by destruct sx.
  - intros <-. by destruct sx.
  - intros <-.
    pose proof (div_core_nonneg prec emax mx ex my ey) as H.
    destruct (SFdiv_core_binary _ _ _ _ _ _) as [[mz ez] lz]; simpl in H.
    replace (xorb sx false) with sx by by destruct sx.
    by apply binary_round_aux_signed.
Qed.

Lemma nonneg_signed x : nonneg x → is_zero x ∨ signed false x.
Proof. destruct x as [|[]| |[]]; simpl; tauto. Qed.

Lemma signed_false_nonneg x : signed false x → nonneg x.
Proof. destruct x as [|[]| |[]]; simpl; done. Qed.

Lemma SFdiv_nonneg prec emax x my ey :
  nonneg x → nonneg (SFdiv prec emax x (S754_finite false my ey)).
Proof.
  intros [Hz|Hs]%nonneg_signed.
  - by destruct x.
  - by apply signed_false_nonneg, SFdiv_signed.
Qed.

(** The square root of a non-negative number is non-negative, in particular
    not NaN. *)
Lemma SFsqrt_nonneg prec emax x : nonneg x → nonneg (SFsqrt prec emax x).
Proof.
  destruct x as [sx|[]| |[] mx ex]; simpl; try done.
  intros _.
  pose proof (sqrt_core_nonneg prec emax mx ex) as H.
  destruct (SFsqrt_core_binary _ _ _ _) as [[mz ez] lz]; simpl in H.
  by apply signed_false_nonneg, binary_round_aux_signed.
Qed.

Lemma SFsqrt_negative prec emax x : negative x → SFsqrt prec emax x = S754_nan.
Proof. by destruct x as [|[]| |[]]. Qed.

(** The comparisons of the script, read on [spec_float]. *)
Lemma SFleb_zero_nonneg x : SFleb (S754_zero false) x = true ↔ nonneg x.
Proof. destruct x as [|[]| |[]]; simpl; unfold SFleb; simpl; intuition done. Qed.

Lemma SFltb_zero_negative x : SFltb x (S754_zero false) = true ↔ negative x.
Proof. destruct x as [|[]| |[]]; simpl; unfold SFltb; simpl; intuition done. Qed.

Lemma SFeqb_refl_nan x : SFeqb x x = false ↔ x = S754_nan.
Proof.
  destruct x as [s|s| |s m e]; unfold SFeqb; simpl.
  - done.
  - by destruct s.
  - done.
  - destruct s; rewrite Z.compare_refl; simpl.
    + by rewrite Pos.compare_cont_refl.
    + by rewrite Pos.compare_cont_refl.
Qed.

(** *** Quotients that do not vanish

    Which negative dividends have a quotient by [math.pi] that is still
    negative, rather than rounded to [-0.0]. *)

Lemma digits2_pos_size p : digits2_pos p = Pos.size p.
Proof. induction p as [p IH|p IH|]; simpl; by rewrite ?IH. Qed.

Lemma Zdigits2_lower m : (0 < m)%Z → (2 ^ (Zdigits2 m - 1) <= m)%Z.
Proof.
  destruct m as [|p|p]; [lia| |lia]. intros _. simpl.
  rewrite digits2_pos_size.
  pose proof (Pos.size_le p) as H.
  apply Pos2Z.pos_le_pos in H. rewrite Pos2Z.inj_pow in H.
  replace (Z.pos (Pos.size p)) with (Z.succ (Z.pos (Pos.size p) - 1)) in H by lia.
  rewrite Z.pow_succ_r in H by lia. lia.
Qed.

Lemma shr_1_lower k mrs :
  (1 <= k)%Z → (2 ^ k <= shr_m mrs)%Z → (2 ^ (k - 1) <= shr_m (shr_1 mrs))%Z.
Proof.
  intros Hk. replace k with (Z.succ (k - 1)) at 1 by lia.
  rewrite Z.pow_succ_r by lia.
  pose proof (Z.pow_pos_nonneg 2 (k - 1) ltac:(lia) ltac:(lia)).
  destruct mrs as [m r s]; simpl.
  destruct m as [|[p|p|]|p]; simpl; lia.
Qed.

Lemma iter_shr_1_lower p k mrs :
  (Z.pos p <= k)%Z → (2 ^ k <= shr_m mrs)%Z →
  (2 ^ (k - Z.pos p) <= shr_m (SpecFloat.iter_pos shr_1 p mrs))%Z.
Proof.
  revert k mrs. induction p as [p IH|p IH|]; intros k mrs Hk H; simpl.
  - replace (k - Z.pos p~1)%Z with (k - 1 - Z.pos p - Z.pos p)%Z by lia.
    apply IH; [lia|]. apply IH; [lia|]. apply shr_1_lower; [lia|done].
  - replace (k - Z.pos p~0)%Z with (k - Z.pos p - Z.pos p)%Z by lia.
    apply IH; [lia|]. by apply IH; [lia|].
  - by apply shr_1_lower.
Qed.

(** Above the least exponent, truncation to the format keeps a positive
    mantissa positive. *)
Lemma shr_fexp_pos prec emax m e l :
  (0 < prec)%Z → (1 <= m)%Z → (SpecFloat.emin prec emax <= e)%Z →
  (1 <= shr_m (shr_fexp prec emax m e l).1)%Z.
Proof.
  intros Hprec Hm He. unfold shr_fexp, shr, fexp.
  pose proof (Zdigits2_lower m ltac:(lia)) as Hd.
  destruct (_ - e)%Z as [|p|p] eqn:Hn; simpl; rewrite ?shr_record_of_loc_m; try lia.
  assert (Z.pos p <= Zdigits2 m - 1)%Z as Hp by lia.
  pose proof (iter_shr_1_lower p (Zdigits2 m - 1) (shr_record_of_loc m l) Hp) as Hi.
  rewrite shr_record_of_loc_m in Hi. specialize (Hi Hd).
  pose proof (Z.pow_pos_nonneg 2 (Zdigits2 m - 1 - Z.pos p) ltac:(lia) ltac:(lia)).
  lia.
Qed.

Lemma shr_fexp_exp prec emax m e l :
  (SpecFloat.emin prec emax <= e)%Z →
  (SpecFloat.emin prec emax <= (shr_fexp prec emax m e l).2)%Z.
Proof.
  intros He. unfold shr_fexp, shr, fexp.
  destruct (_ - e)%Z as [|p|p] eqn:Hn; simpl; lia.
Qed.

Lemma shr_fexp_zero prec emax e l :
  (0 < prec)%Z → (SpecFloat.emin prec emax <= e)%Z →
  shr_fexp prec emax 0 e l = (shr_record_of_loc 0 l, e).
Proof.
  intros Hprec He. unfold shr_fexp, shr, fexp. simpl Zdigits2.
  destruct (_ - e)%Z as [|p|p] eqn:Hn; simpl; try done. lia.
Qed.

(** Rounding gives a zero only for a mantissa that is zero and not rounded
    up. *)
Lemma binary_round_aux_nonzero prec emax s m e l :
  (0 < prec)%Z → (SpecFloat.emin prec emax <= e)%Z →
  (1 <= m)%Z ∨ (m = 0%Z ∧ l = loc_Inexact Gt) →
  ¬ is_zero (binary_round_aux prec emax s m e l).
Proof.
  intros Hprec He Hm. unfold binary_round_aux.
  assert (∀ mrs' e',
    shr_fexp prec emax m e l = (mrs', e') →
    (SpecFloat.emin prec emax <= e')%Z
    ∧ (1 <= round_nearest_even (shr_m mrs') (loc_of_shr_record mrs'))%Z) as H1.
  { intros mrs' e' Heq. split.
    - pose proof (shr_fexp_exp prec emax m e l He) as H. by rewrite Heq in H.
    - destruct Hm as [Hm|[-> ->]].
      + pose proof (shr_fexp_pos prec emax m e l Hprec Hm He) as H.
        rewrite Heq in H; simpl in H.
        destruct (loc_of_shr_record mrs') as [|[]]; simpl; try lia.
        destruct (IntDef.Z.even _); lia.
      + rewrite shr_fexp_zero in Heq by done. by inversion Heq. }
  destruct (shr_fexp prec emax m e l) as [mrs' e'].
  destruct (H1 _ _ eq_refl) as [He' Hm'].
  pose proof (shr_fexp_pos prec emax _ e' loc_Exact Hprec Hm' He') as H2.
  destruct (shr_fexp prec emax _ e' loc_Exact) as [mrs'' e'']; simpl in H2.
  destruct (shr_m mrs''); [lia| |lia].
  destruct (e'' <=? emax - prec)%Z; simpl; tauto.
Qed.

(** The quotient of a finite binary64 number by [math.pi] rounds to zero
    only for the number of least magnitude, mantissa 1 at exponent -1074. *)
Lemma SFdiv_pi_nonzero s m e :
  bounded 53 1024 m e = true →
  (-1074 < e)%Z ∨ (2 <= Z.pos m)%Z →
  ¬ is_zero (SFdiv 53 1024 (S754_finite s m e)
               (S754_finite false 7074237752028440 (-51))).
Proof.
  intros Hb Hmin. simpl.
  apply andb_prop in Hb as [Hcan _].
  unfold canonical_mantissa, fexp, SpecFloat.emin in Hcan.
  apply Z.eqb_eq in Hcan.
  pose proof (Zdigits2_lower (Z.pos m) ltac:(lia)) as Hd.
  unfold SFdiv_core_binary.
  change (Zdigits2 (Z.pos 7074237752028440)) with 53%Z.
  simpl (Zdigits2 (Z.pos m)) in *.
  set (d := Z.pos (digits2_pos m)) in *.
  unfold fexp, SpecFloat.emin.
  set (e' := (Z.min _ (e - -51))%Z).
  assert (-1074 <= e')%Z as He' by lia.
  set (sh := (e - -51 - e')%Z).
  assert (51 <= sh)%Z as Hsh by lia.
  assert (4503599627370496 <= Z.pos m * 2 ^ sh)%Z as Hbig.
  { destruct (decide (e = (-1074)%Z)) as [He|He].
    - assert (sh = 51%Z) as -> by lia. lia.
    - assert (d = 53%Z) as Hd53 by lia.
      rewrite Hd53 in Hd. change (2 ^ (53 - 1))%Z with 4503599627370496%Z in Hd.
      pose proof (Z.pow_pos_nonneg 2 sh ltac:(lia) ltac:(lia)). nia. }
  destruct sh as [|psh|psh] eqn:Esh; [lia| |lia].
  rewrite Z.shiftl_mul_pow2 by lia.
  set (m' := (Z.pos m * 2 ^ Z.pos psh)%Z) in *.
  change IntDef.Z.div_eucl with Z.div_eucl.
  pose proof (Z.div_eucl_eq m' 7074237752028440 ltac:(lia)) as Heq.
  pose proof (Z.mod_pos_bound m' 7074237752028440 ltac:(lia)) as Hmod.
  unfold Z.modulo in Hmod.
  destruct (Z.div_eucl m' 7074237752028440) as [q r].
  apply binary_round_aux_nonzero; [lia|unfold SpecFloat.emin; lia|].
  destruct (decide (1 <= q)%Z) as [Hq|Hq]; [by left|right].
  assert (q = 0%Z) as -> by nia. split; [done|].
  unfold new_location.
  change (IntDef.Z.even 7074237752028440) with true. cbv iota.
  unfold new_location_even.
  destruct (Z.eqb_spec r 0) as [Hr|Hr]; [lia|].
  f_equal. apply Z.compare_gt_iff. lia.
Qed.

End B64Facts.

(** ** Floats of the script against their specification *)

Section float_facts.
#[local] Open Scope float_scope.

Lemma Prim2SF_math_pi :
  Prim2SF math_pi = S754_finite false 7074237752028440 (-51).
Proof. reflexivity. Qed.

Lemma leb_zero_nonneg (a : float) :
  (0 <=? a) = true ↔ B64.nonneg (Prim2SF a).
Proof. rewrite FloatAxioms.leb_spec. apply B64Facts.SFleb_zero_nonneg. Qed.

Lemma ltb_zero_negative (a : float) :
  (a <? 0) = true ↔ B64.negative (Prim2SF a).
Proof. rewrite FloatAxioms.ltb_spec. apply B64Facts.SFltb_zero_negative. Qed.

Lemma is_nan_true (x : float) : is_nan x = true ↔ Prim2SF x = S754_nan.
Proof.
  unfold is_nan. rewrite FloatAxioms.eqb_spec, negb_true_iff.
  apply B64Facts.SFeqb_refl_nan.
Qed.

Lemma is_nan_false_nonneg (x : float) :
  B64.nonneg (Prim2SF x) → is_nan x = false.
Proof.
  intros H. apply not_true_is_false. rewrite is_nan_true.
  intros E. by rewrite E in H.
Qed.

Lemma div_pi_nonneg (a : float) :
  B64.nonneg (Prim2SF a) → B64.nonneg (Prim2SF (a / math_pi)).
Proof.
  intros H. rewrite FloatAxioms.div_spec, Prim2SF_math_pi. by apply B64Facts.SFdiv_nonneg.
Qed.

Lemma sqrt_nonneg (q : float) :
  B64.nonneg (Prim2SF q) → B64.nonneg (Prim2SF (sqrt q)).
Proof. intros H. rewrite FloatAxioms.sqrt_spec. by apply B64Facts.SFsqrt_nonneg. Qed.

(** [math.sqrt] returns on every argument that compares [0 <= q]. *)
Lemma math_sqrt_nonneg (q : float) :
  B64.nonneg (Prim2SF q) → math_sqrt q = Returns (sqrt q).
Proof.
  intros H. unfold math_sqrt.
  by rewrite (is_nan_false_nonneg _ (sqrt_nonneg q H)).
Qed.

(** [math.sqrt] raises on every argument that compares [q < 0]. *)
Lemma math_sqrt_negative (q : float) :
  B64.negative (Prim2SF q) → math_sqrt q = Raises ValueError.
Proof.
  intros H. unfold math_sqrt.
  assert (is_nan (sqrt q) = true) as ->.
  { rewrite is_nan_true, FloatAxioms.sqrt_spec. by apply B64Facts.SFsqrt_negative. }
  assert (is_nan q = false) as ->; [|done].
  apply not_true_is_false. rewrite is_nan_true.
  intros E. by rewrite E in H.
Qed.

Lemma Prim2SF_least_negative :
  Prim2SF (-0x1p-1074) = S754_finite true 1 (-1074).
Proof. reflexivity. Qed.

(** The quotient by [math.pi] of a negative number other than the least
    one is still negative. *)
Lemma div_pi_negative (a : float) :
  (a <? 0) = true → a ≠ -0x1p-1074 →
  B64.negative (Prim2SF (a / math_pi)).
Proof.
  intros Hneg%ltb_zero_negative Hne.
  pose proof (Prim2SF_valid a) as Hv.
  rewrite FloatAxioms.div_spec, Prim2SF_math_pi.
  destruct (Prim2SF a) as [sa|sa| |sa m e] eqn:Ha; try done.
  - by destruct sa.
  - assert (sa = true) as -> by by destruct sa.
    assert ((-1074 < e)%Z ∨ (2 <= Z.pos m)%Z) as Hmin.
    { destruct (decide (e = (-1074)%Z)) as [->|He].
      - right. destruct (decide (m = 1%positive)) as [->|Hm]; [|lia].
        destruct Hne. apply Prim2SF_inj.
        by rewrite Ha, Prim2SF_least_negative.
      - left. simpl in Hv. apply andb_prop in Hv as [Hcan _].
        unfold canonical_mantissa, fexp, SpecFloat.emin in Hcan.
        apply Z.eqb_eq in Hcan. change prec with 53%Z in Hcan.
        change emax with 1024%Z in Hcan. lia. }
    pose proof (B64Facts.SFdiv_pi_nonzero true m e Hv Hmin) as Hnz.
    pose proof (B64Facts.SFdiv_signed prec emax (S754_finite true m e)
                  7074237752028440 (-51) true eq_refl) as Hs.
    change (SF64div ?x ?y) with (SFdiv 53 1024 x y).
    change prec with 53%Z in Hs. change emax with 1024%Z in Hs.
    destruct (SFdiv 53 1024 _ _) as [|[]| |[]]; simpl in *; done.
Qed.

Lemma area_to_radius_km_nonneg (a : float) :
  (0 <=? a) = true → area_to_radius_km a = Returns (sqrt (a / math_pi)).
Proof.
  intros H%leb_zero_nonneg. by apply math_sqrt_nonneg, div_pi_nonneg.
Qed.
End float_facts.

(** ** How [fetch_species] unfolds *)

Lemma fetch_species_returns_radius lat lng a thr intr radius :
  area_to_radius_km a = Returns radius →
  fetch_species lat lng a thr intr
  = GetCounts (query_params lat lng radius thr intr)
      (λ resp, lift (species_records resp)).
Proof. intros H. unfold fetch_species. by rewrite H. Qed.

Lemma fetch_species_raises_radius lat lng a thr intr e :
  area_to_radius_km a = Raises e →
  fetch_species lat lng a thr intr = Raise e.
Proof. intros H. unfold fetch_species. by rewrite H. Qed.

(** When [fetch_species] reaches the client, the radius was computed, the
    keyword arguments are [query_params] and what follows the call is the
    list comprehension. *)
Lemma fetch_species_call_inv lat lng a thr intr kwargs k :
  fetch_species lat lng a thr intr = GetCounts kwargs k →
  ∃ radius,
    area_to_radius_km a = Returns radius
    ∧ kwargs = query_params lat lng radius thr intr
    ∧ k = (λ resp, lift (species_records resp)).
Proof.
  intros H. destruct (area_to_radius_km a) as [radius|e] eqn:Hr.
  - rewrite (fetch_species_returns_radius _ _ _ _ _ _ Hr) in H.
    exists radius. by inversion H.
  - by rewrite (fetch_species_raises_radius _ _ _ _ _ _ Hr) in H.
Qed.

Lemma lift_Ret_inv {A} (r : result A) (a : A) : lift r = Ret a → r = Returns a.
Proof. destruct r; simpl; congruence. Qed.

(** *** The optional keys of the request *)

Lemma query_params_threatened lat lng radius thr intr :
  query_params lat lng radius thr intr !! "threatened" = PyBool <$> thr.
Proof.
  unfold query_params, py_dict; simpl.
  destruct thr, intr; simpl; by simplify_map_eq.
Qed.

Lemma query_params_introduced lat lng radius thr intr :
  query_params lat lng radius thr intr !! "introduced" = PyBool <$> intr.
Proof.
  unfold query_params, py_dict; simpl.
  destruct thr, intr; simpl; by simplify_map_eq.
Qed.

Lemma query_params_fixed lat lng radius thr intr :
  query_params lat lng radius thr intr !! "lat" = Some (PyFloat lat)
  ∧ query_params lat lng radius thr intr !! "lng" = Some (PyFloat lng)
  ∧ query_params lat lng radius thr intr !! "radius" = Some (PyFloat radius)
  ∧ query_params lat lng radius thr intr !! "quality_grade" = Some (PyStr "research")
  ∧ query_params lat lng radius thr intr !! "per_page" = Some (PyInt 200)
  ∧ query_params lat lng radius thr intr !! "page" = Some (PyStr "all").
Proof.
  unfold query_params, py_dict; simpl.
  destruct thr, intr; simpl; repeat split; by simplify_map_eq.
Qed.

(** *** The list comprehension *)

Lemma mapM_Returns {A B} (f : A → result B) (l : list A) (out : list B) :
  mapM f l = Returns out ↔ Forall2 (λ x y, f x = Returns y) l out.
Proof.
  revert out. induction l as [|x l IH]; intros out; simpl.
  - split.
    + intros [= <-]. constructor.
    + by inversion 1.
  - unfold mbind, result_bind, mret, result_ret.
    destruct (f x) as [y|e] eqn:Hx.
    + destruct (mapM f l) as [ys|e] eqn:Hl.
      * split.
        -- intros [= <-]. constructor; [done|]. by apply IH.
        -- inversion 1 as [|? y' ? ys' Hy Hys]; subst.
           apply IH in Hys. congruence.
      * split; [done|].
        inversion 1 as [|? y' ? ys' Hy Hys]; subst.
        apply IH in Hys. congruence.
    + split; [done|].
      inversion 1; subst. congruence.
Qed.

Lemma species_records_rows (d : gmap string pyval) (rows : list pyval) :
  d !! "results" = Some (PyList rows) →
  species_records (PyDict d) = mapM species_record rows.
Proof. intros H. unfold species_records; simpl. by rewrite H. Qed.

Lemma species_record_row r t id name rank count :
  row_fields r t id name rank count →
  species_record (PyDict r)
  = Returns (PyDict (py_dict [
      ("taxon_id", id);
      ("scientific_name", name);
      ("common_name", default PyNone (t !! "preferred_common_name"));
      ("rank", rank);
      ("obs_count", count)
    ])).
Proof.
  intros (Ht & Hc & Hid & Hname & Hrank).
  unfold species_record; simpl.
  rewrite Ht, Hc; simpl. by rewrite Hid, Hname, Hrank.
Qed.

(** *** The printing loop *)

Lemma display_name_falsy (s : gmap string pyval) common_name scientific_name :
  s !! "common_name" = Some common_name →
  py_truthy common_name = false →
  s !! "scientific_name" = Some scientific_name →
  display_name (PyDict s) = Returns scientific_name.
Proof.
  intros Hc Hf Hs. unfold display_name; simpl.
  rewrite Hc; simpl. by rewrite Hf, Hs.
Qed.

Lemma print_names_cons s rest name :
  display_name s = Returns name →
  print_names (s :: rest) = Print name (print_names rest).
Proof. intros H. simpl. by rewrite H. Qed.

(** ** The specification *)

Section claims.
  #[local] Open Scope float_scope.

(** C1: for every binary64 [area_km2] with [0 <= area_km2],
    [area_to_radius_km] returns (it does not raise) the float
    [sqrt (area_km2 / math.pi)], both operations being the correctly rounded
    binary64 ones of the source; and [area_to_radius_km 0] returns [0]. *)
Theorem area_to_radius_km_spec :
  (∀ area_km2 : float,
     (0 <=? area_km2) = true →
     area_to_radius_km area_km2 = Returns (sqrt (area_km2 / math_pi)))
  ∧ area_to_radius_km 0 = Returns 0.
Proof.
  split.
  - intros a Ha. by apply area_to_radius_km_nonneg.
  - reflexivity.
Qed.

Lemma area_to_radius_km_spec_witness :
  (0 <=? 10) = true
  ∧ area_to_radius_km 10 = Returns (sqrt (10 / math_pi))
  ∧ sqrt (10 / math_pi) = 0x1.c8bc5baae18d0p+0.
Proof.
  split; [reflexivity|]. split; [|reflexivity].
  apply (proj1 area_to_radius_km_spec 10). reflexivity.
Defined.

(** The entry point against a client that answers every call with the
    example response: two calls, then the two headers, each followed by the
    name of the one species. *)
Example main_mock_response :
  run (λ _, Returns mock_response) main
  = ([PyStr (newline +:+ "Threatened species:"); PyStr "Red fox";
      PyStr (newline +:+ "Introduced species:"); PyStr "Red fox"],
     Returns tt).
Proof. reflexivity. Qed.

(** C2: whenever [fetch_species] calls the client and the client returns
    the example response for that call, [fetch_species] returns exactly the
    one-record list of the example (and prints nothing). *)
Theorem fetch_species_mock_response client lat lng area_km2 thr intr kwargs k :
  fetch_species lat lng area_km2 thr intr = GetCounts kwargs k →
  client kwargs = Returns mock_response →
  run client (fetch_species lat lng area_km2 thr intr)
  = ([], Returns mock_records).
Proof.
  intros Hcall Hresp. rewrite Hcall; simpl. rewrite Hresp.
  apply fetch_species_call_inv in Hcall as (radius & _ & _ & ->).
  reflexivity.
Qed.

Lemma fetch_species_mock_response_witness :
  run (λ _, Returns mock_response) (fetch_species LAT LNG 10 (Some true) None)
  = ([], Returns mock_records).
Proof.
  apply (fetch_species_mock_response (λ _, Returns mock_response)
           LAT LNG 10 (Some true) None
           (query_params LAT LNG 0x1.c8bc5baae18d0p+0 (Some true) None)
           (λ resp, lift (species_records resp))).
  - reflexivity.
  - reflexivity.
Defined.

(** C3: for every [lat], [lng] and [area_km2 >= 0], [fetch_species] with
    [threatened=True] and [introduced] left unset calls the client with
    keyword arguments that hold ["threatened"] with value [True] and do not
    hold ["introduced"]. *)
Theorem fetch_species_threatened_params lat lng area_km2 :
  (0 <=? area_km2) = true →
  ∃ kwargs k,
    fetch_species lat lng area_km2 (Some true) None = GetCounts kwargs k
    ∧ kwargs !! "threatened" = Some (PyBool true)
    ∧ kwargs !! "introduced" = None.
Proof.
  intros Ha%area_to_radius_km_nonneg.
  eexists _, _. split.
  - by apply fetch_species_returns_radius.
  - by rewrite query_params_threatened, query_params_introduced.
Qed.

Lemma fetch_species_threatened_params_witness :
  ∃ kwargs k,
    fetch_species LAT LNG 10 (Some true) None = GetCounts kwargs k
    ∧ kwargs !! "threatened" = Some (PyBool true)
    ∧ kwargs !! "introduced" = None.
Proof.
  apply (fetch_species_threatened_params LAT LNG 10). reflexivity.
Defined.

(** C4: for every [lat], [lng] and [area_km2 >= 0], [fetch_species] with
    neither filter set calls the client with keyword arguments that hold
    neither ["threatened"] nor ["introduced"], and that hold
    [quality_grade = "research"], [per_page = 200] and [page = "all"]. *)
Theorem fetch_species_unfiltered_params lat lng area_km2 :
  (0 <=? area_km2) = true →
  ∃ kwargs k,
    fetch_species lat lng area_km2 None None = GetCounts kwargs k
    ∧ kwargs !! "threatened" = None
    ∧ kwargs !! "introduced" = None
    ∧ kwargs !! "quality_grade" = Some (PyStr "research")
    ∧ kwargs !! "per_page" = Some (PyInt 200)
    ∧ kwargs !! "page" = Some (PyStr "all").
Proof.
  intros Ha%area_to_radius_km_nonneg.
  eexists _, _. split.
  - by apply fetch_species_returns_radius.
  - rewrite query_params_threatened, query_params_introduced.
    pose proof (query_params_fixed lat lng (sqrt (area_km2 / math_pi)) None None)
      as (_ & _ & _ & Hq & Hpp & Hp).
    by rewrite Hq, Hpp, Hp.
Qed.

Lemma fetch_species_unfiltered_params_witness :
  ∃ kwargs k,
    fetch_species LAT LNG 10 None None = GetCounts kwargs k
    ∧ kwargs !! "threatened" = None
    ∧ kwargs !! "introduced" = None
    ∧ kwargs !! "quality_grade" = Some (PyStr "research")
    ∧ kwargs !! "per_page" = Some (PyInt 200)
    ∧ kwargs !! "page" = Some (PyStr "all").
Proof.
  apply (fetch_species_unfiltered_params LAT LNG 10). reflexivity.
Defined.

(** C7: for every [area_km2 >= 0] (and every other argument), the
    ["radius"] that [fetch_species] passes to the client is the float
    [sqrt (area_km2 / math.pi)], and that float compares [0 <= radius]. *)
Theorem fetch_species_radius lat lng area_km2 thr intr :
  (0 <=? area_km2) = true →
  ∃ kwargs k,
    fetch_species lat lng area_km2 thr intr = GetCounts kwargs k
    ∧ kwargs !! "radius" = Some (PyFloat (sqrt (area_km2 / math_pi)))
    ∧ (0 <=? sqrt (area_km2 / math_pi)) = true.
Proof.
  intros Ha. eexists _, _. split; [|split].
  - by apply fetch_species_returns_radius, area_to_radius_km_nonneg.
  - apply query_params_fixed.
  - apply leb_zero_nonneg, sqrt_nonneg, div_pi_nonneg.
    by apply leb_zero_nonneg.
Qed.

Lemma fetch_species_radius_witness :
  ∃ kwargs k,
    fetch_species LAT LNG 10 (Some true) None = GetCounts kwargs k
    ∧ kwargs !! "radius" = Some (PyFloat (sqrt (10 / math_pi)))
    ∧ (0 <=? sqrt (10 / math_pi)) = true.
Proof.
  apply (fetch_species_radius LAT LNG 10 (Some true) None). reflexivity.
Defined.

(** C9: in the keyword arguments [fetch_species] passes to the client,
    ["threatened"] (resp. ["introduced"]) is present if and only if the
    argument is not [None], and then holds the argument's value; so an
    explicit [False] is passed as [False], not left out. *)
Theorem fetch_species_optional_keys lat lng area_km2 thr intr kwargs k :
  fetch_species lat lng area_km2 thr intr = GetCounts kwargs k →
  (is_Some (kwargs !! "threatened") ↔ thr ≠ None)
  ∧ (is_Some (kwargs !! "introduced") ↔ intr ≠ None)
  ∧ kwargs !! "threatened" = PyBool <$> thr
  ∧ kwargs !! "introduced" = PyBool <$> intr
  ∧ (thr = Some false → kwargs !! "threatened" = Some (PyBool false))
  ∧ (intr = Some false → kwargs !! "introduced" = Some (PyBool false)).
Proof.
  intros (radius & _ & -> & _)%fetch_species_call_inv.
  rewrite query_params_threatened, query_params_introduced.
  repeat split; try (by intros ->).
  - destruct thr; [done|]. by intros [? [=]].
  - by destruct thr; [eexists|].
  - destruct intr; [done|]. by intros [? [=]].
  - by destruct intr; [eexists|].
Qed.

Lemma fetch_species_optional_keys_witness :
  let kwargs := query_params LAT LNG 0x1.c8bc5baae18d0p+0 (Some false) None in
  (is_Some (kwargs !! "threatened") ↔ Some false ≠ None)
  ∧ (is_Some (kwargs !! "introduced") ↔ @None bool ≠ None)
  ∧ kwargs !! "threatened" = PyBool <$> Some false
  ∧ kwargs !! "introduced" = PyBool <$> None
  ∧ (Some false = Some false → kwargs !! "threatened" = Some (PyBool false))
  ∧ (@None bool = Some false → kwargs !! "introduced" = Some (PyBool false)).
Proof.
  apply (fetch_species_optional_keys LAT LNG 10 (Some false) None _
           (λ resp, lift (species_records resp))).
  reflexivity.
Defined.

(** C5, as stated, fails: the smallest negative float, [-5e-324], compares
    below zero, but its quotient by [math.pi] rounds to [-0.0], whose square
    root is [-0.0]; nothing is raised and [fetch_species] goes on to call
    the client with radius [-0.0]. *)
Lemma area_to_radius_km_negative_underflow :
  (-0x1p-1074 <? 0) = true
  ∧ area_to_radius_km (-0x1p-1074) = Returns (-0)
  ∧ fetch_species LAT LNG (-0x1p-1074) None None
    = GetCounts (query_params LAT LNG (-0) None None)
        (λ resp, lift (species_records resp)).
Proof. repeat split. Qed.

(** C5, amended: for every [area_km2 < 0] other than [-5e-324], the
    negative float of least magnitude, [area_to_radius_km] raises the
    [ValueError] of [math.sqrt], and [fetch_species] raises it without
    calling the client. *)
Theorem area_to_radius_km_negative area_km2 :
  (area_km2 <? 0) = true →
  area_km2 ≠ -0x1p-1074 →
  area_to_radius_km area_km2 = Raises ValueError
  ∧ ∀ lat lng thr intr,
      fetch_species lat lng area_km2 thr intr = Raise ValueError.
Proof.
  intros Hneg Hne.
  assert (area_to_radius_km area_km2 = Raises ValueError) as Hraise.
  { by apply math_sqrt_negative, div_pi_negative. }
  split; [done|].
  intros lat lng thr intr. by apply fetch_species_raises_radius.
Qed.

Lemma area_to_radius_km_negative_witness :
  area_to_radius_km (-1) = Raises ValueError
  ∧ ∀ lat lng thr intr, fetch_species lat lng (-1) thr intr = Raise ValueError.
Proof.
  apply (area_to_radius_km_negative (-1)); [reflexivity|].
  intros H. by apply (f_equal Prim2SF) in H.
Defined.



(** C10: the fallback of the printing loop is taken for every falsy
    ["common_name"], the empty string and [None] among them: the loop
    prints the record's ["scientific_name"] for such a record. *)
Theorem print_names_falsy_common_name :
  py_truthy (PyStr "") = false
  ∧ py_truthy PyNone = false
  ∧ ∀ (s : gmap string pyval) common_name scientific_name rest,
      s !! "common_name" = Some common_name →
      py_truthy common_name = false →
      s !! "scientific_name" = Some scientific_name →
      print_names (PyDict s :: rest)
      = Print scientific_name (print_names rest).
Proof.
  split; [done|]. split; [done|].
  intros s cn sn rest Hc Hf Hs.
  apply print_names_cons. by eapply display_name_falsy.
Qed.

Lemma print_names_falsy_common_name_witness :
  let s := py_dict [
    ("taxon_id", PyInt 7);
    ("scientific_name", PyStr "Lynx lynx");
    ("common_name", PyStr "");
    ("rank", PyStr "species");
    ("obs_count", PyInt 2)
  ] in
  print_names [PyDict s] = Print (PyStr "Lynx lynx") (Ret tt).
Proof.
  intros s.
  apply (proj2 (proj2 print_names_falsy_common_name)
           s (PyStr "") (PyStr "Lynx lynx") []); reflexivity.
Defined.

End claims.

(** ** Further properties of the script *)

(** *** Floats *)

Section more_float_facts.
#[local] Open Scope float_scope.
Import B64 B64Facts.

Lemma div_pi_nan (a : float) :
  Prim2SF a = S754_nan → Prim2SF (a / math_pi) = S754_nan.
Proof. intros H. by rewrite FloatAxioms.div_spec, H. Qed.

Lemma math_sqrt_nan (q : float) :
  Prim2SF q = S754_nan → math_sqrt q = Returns (sqrt q) ∧ is_nan (sqrt q) = true.
Proof.
  intros H. unfold math_sqrt.
  assert (is_nan q = true) as -> by by apply is_nan_true.
  assert (is_nan (sqrt q) = true) as ->; [|done].
  apply is_nan_true. by rewrite FloatAxioms.sqrt_spec, H.
Qed.

(** The three ways a float compares with zero. *)
Lemma float_sign_cases (a : float) :
  B64.nonneg (Prim2SF a) ∨ B64.negative (Prim2SF a) ∨ Prim2SF a = S754_nan.
Proof. destruct (Prim2SF a) as [|[]| |[]]; simpl; auto. Qed.

Lemma SFltb_zero_positive x : SFltb (S754_zero false) x = true ↔ strictly_positive x.
Proof. destruct x as [|[]| |[]]; simpl; unfold SFltb; simpl; intuition done. Qed.

Lemma strictly_positive_signed x : strictly_positive x ↔ signed false x ∧ ¬ is_zero x.
Proof. destruct x as [|[]| |[]]; simpl; intuition done. Qed.

(** The square root of a finite positive binary64 number is not zero. *)
Lemma SFsqrt_nonzero m e :
  bounded 53 1024 m e = true →
  ¬ is_zero (SFsqrt 53 1024 (S754_finite false m e)).
Proof.
  intros Hb. simpl.
  apply andb_prop in Hb as [Hcan _].
  unfold canonical_mantissa, fexp, SpecFloat.emin in Hcan.
  apply Z.eqb_eq in Hcan.
  unfold SFsqrt_core_binary.
  set (e' := Z.min _ (Z.div2 e)).
  assert (SpecFloat.emin 53 1024 <= e')%Z as He'.
  { subst e'. unfold fexp, SpecFloat.emin.
    change IntDef.Z.div2 with Z.div2. rewrite (Z.div2_div e).
    pose proof (Z.div_mod e 2 ltac:(lia)).
    pose proof (Z.mod_pos_bound e 2 ltac:(lia)). lia. }
  assert (0 <= e - 2 * e')%Z as Hs.
  { subst e'. change IntDef.Z.div2 with Z.div2. rewrite (Z.div2_div e).
    pose proof (Z.div_mod e 2 ltac:(lia)).
    pose proof (Z.mod_pos_bound e 2 ltac:(lia)). lia. }
  set (m' := match (e - 2 * e')%Z with
             | 0%Z => Z.pos m | Z.pos _ => _ | Z.neg _ => _ end).
  assert (1 <= m')%Z as Hm'.
  { subst m'. destruct (e - 2 * e')%Z as [|p|p] eqn:Es; [lia| |lia].
    rewrite Z.shiftl_mul_pow2 by lia.
    pose proof (Z.pow_pos_nonneg 2 (Z.pos p) ltac:(lia) ltac:(lia)). nia. }
  change IntDef.Z.sqrtrem with Z.sqrtrem.
  pose proof (Z.sqrtrem_spec m' ltac:(lia)) as Hq.
  destruct (Z.sqrtrem m') as [q r].
  apply binary_round_aux_nonzero; [lia|done|].
  left. nia.
Qed.

Lemma ltb_zero_positive (a : float) :
  (0 <? a) = true ↔ strictly_positive (Prim2SF a).
Proof. rewrite FloatAxioms.ltb_spec. apply SFltb_zero_positive. Qed.

Lemma Prim2SF_least_positive :
  Prim2SF 0x1p-1074 = S754_finite false 1 (-1074).
Proof. reflexivity. Qed.

(** The quotient by [math.pi] of a positive number other than the least
    one is still positive. *)
Lemma div_pi_positive (a : float) :
  (0 <? a) = true → a ≠ 0x1p-1074 →
  strictly_positive (Prim2SF (a / math_pi)).
Proof.
  intros Hpos%ltb_zero_positive Hne.
  pose proof (Prim2SF_valid a) as Hv.
  rewrite FloatAxioms.div_spec, Prim2SF_math_pi.
  destruct (Prim2SF a) as [sa|sa| |sa m e] eqn:Ha; try done.
  - by destruct sa.
  - assert (sa = false) as -> by by destruct sa.
    assert ((-1074 < e)%Z ∨ (2 <= Z.pos m)%Z) as Hmin.
    { destruct (decide (e = (-1074)%Z)) as [->|He].
      - right. destruct (decide (m = 1%positive)) as [->|Hm]; [|lia].
        destruct Hne. apply Prim2SF_inj.
        by rewrite Ha, Prim2SF_least_positive.
      - left. simpl in Hv. apply andb_prop in Hv as [Hcan _].
        unfold canonical_mantissa, fexp, SpecFloat.emin in Hcan.
        apply Z.eqb_eq in Hcan. change prec with 53%Z in Hcan.
        change emax with 1024%Z in Hcan. lia. }
    apply strictly_positive_signed. split.
    + by apply (SFdiv_signed prec emax (S754_finite false m e)
                  7074237752028440 (-51) false).
    + by apply SFdiv_pi_nonzero.
Qed.

Lemma sqrt_positive (q : float) :
  strictly_positive (Prim2SF q) → strictly_positive (Prim2SF (sqrt q)).
Proof.
  intros Hq. pose proof (Prim2SF_valid q) as Hv.
  rewrite FloatAxioms.sqrt_spec.
  destruct (Prim2SF q) as [|[]| |[] m e]; try done.
  apply strictly_positive_signed. split.
  - pose proof (SFsqrt_nonneg prec emax (S754_finite false m e) I) as Hn.
    apply nonneg_signed in Hn as [Hz|Hs]; [|done].
    by destruct (SFsqrt_nonzero m e Hv).
  - by apply SFsqrt_nonzero.
Qed.

(** Only a negative area makes [area_to_radius_km] raise. *)
Lemma area_to_radius_km_raises_negative area_km2 e :
  area_to_radius_km area_km2 = Raises e →
  e = ValueError ∧ (area_km2 <? 0) = true.
Proof.
  intros H. destruct (float_sign_cases area_km2) as [Hn|[Hn|Hn]].
  - apply div_pi_nonneg, math_sqrt_nonneg in Hn.
    unfold area_to_radius_km in H. congruence.
  - split; [|by apply ltb_zero_negative].
    unfold area_to_radius_km, math_sqrt in H.
    destruct (_ && _); congruence.
  - apply div_pi_nan, math_sqrt_nan in Hn as [Hn _].
    unfold area_to_radius_km in H. congruence.
Qed.

End more_float_facts.

(** *** Requests, records and runs *)

Lemma query_params_dom lat lng radius thr intr :
  dom (query_params lat lng radius thr intr) = request_keys thr intr.
Proof.
  unfold query_params, request_keys, py_dict; simpl.
  destruct thr, intr; rewrite !dom_insert_L, dom_empty_L; set_solver.
Qed.

Lemma record_of_lookup id name common_name rank count :
  record_of id name common_name rank count !! "taxon_id" = Some id
  ∧ record_of id name common_name rank count !! "scientific_name" = Some name
  ∧ record_of id name common_name rank count !! "common_name" = Some common_name
  ∧ record_of id name common_name rank count !! "rank" = Some rank
  ∧ record_of id name common_name rank count !! "obs_count" = Some count.
Proof. unfold record_of, py_dict; simpl. repeat split; by simplify_map_eq. Qed.

Lemma record_of_dom id name common_name rank count :
  dom (record_of id name common_name rank count) = record_keys.
Proof.
  unfold record_of, record_keys, py_dict; simpl.
  rewrite !dom_insert_L, dom_empty_L. set_solver.
Qed.

(** A row has a record only if it has the documented shape. *)
Lemma species_record_inv r o :
  species_record r = Returns o →
  ∃ d t id name rank count,
    r = PyDict d
    ∧ row_fields d t id name rank count
    ∧ o = PyDict (record_of id name
                    (default PyNone (t !! "preferred_common_name")) rank count).
Proof.
  unfold species_record. intros H.
  destruct r as [| | | | | |d]; try done. simpl in H.
  destruct (d !! "taxon") as [taxon|] eqn:Ht; [|done]. simpl in H.
  destruct taxon as [| | | | | |t]; try done. simpl in H.
  destruct (t !! "id") as [id|] eqn:Hid; [|done]. simpl in H.
  destruct (t !! "name") as [name|] eqn:Hname; [|done]. simpl in H.
  destruct (t !! "rank") as [rank|] eqn:Hrank; [|done]. simpl in H.
  destruct (d !! "count") as [count|] eqn:Hcount; [|done]. simpl in H.
  exists d, t, id, name, rank, count.
  split; [done|]. split; [done|].
  unfold mret, result_ret in H. injection H as <-. reflexivity.
Qed.

Lemma mapM_cons_result {A B} (f : A → result B) (x : A) (l : list A) :
  mapM f (x :: l) = (y ← f x; k ← mapM f l; mret (y :: k)).
Proof. done. Qed.

(** The first element without an image decides how [mapM] ends. *)
Lemma mapM_Raises {A B} (f : A → result B) (l1 l2 : list A) (x : A) e :
  Forall (λ y, ∃ z, f y = Returns z) l1 →
  f x = Raises e →
  mapM f (l1 ++ x :: l2) = Raises e.
Proof.
  intros Hl1 Hx. induction Hl1 as [|y l1 [z Hy] _ IH].
  - rewrite app_nil_l, mapM_cons_result. by rewrite Hx.
  - rewrite <- app_comm_cons, mapM_cons_result. by rewrite Hy, IH.
Qed.

Lemma display_name_truthy (s : gmap string pyval) common_name :
  s !! "common_name" = Some common_name →
  py_truthy common_name = true →
  display_name (PyDict s) = Returns common_name.
Proof.
  intros Hc Ht. unfold display_name; simpl. rewrite Hc; simpl. by rewrite Ht.
Qed.

Lemma display_name_record id name common_name rank count :
  display_name (PyDict (record_of id name common_name rank count))
  = Returns (shown_name common_name name).
Proof.
  pose proof (record_of_lookup id name common_name rank count)
    as (_ & Hs & Hc & _).
  unfold shown_name. destruct (py_truthy common_name) eqn:Ht.
  - by apply display_name_truthy.
  - by eapply display_name_falsy.
Qed.

(** What a sequence prints and how it ends is what its first part prints,
    followed, if that part returns, by what the rest prints. *)
Lemma run_bind {A B} client (p : prog A) (f : A → prog B) :
  run client (p ≫= f)
  = match run client p with
    | (out, Returns a) =>
        let '(out', r) := run client (f a) in (out ++ out', r)
    | (out, Raises e) => (out, Raises e)
    end.
Proof.
  unfold mbind, prog_bind.
  induction p as [a|e|kwargs k IH|v k IH]; simpl.
  - by destruct (run client (f a)).
  - done.
  - destruct (client kwargs) as [resp|e]; [apply IH|done].
  - rewrite IH. destruct (run client k) as [out [a|e]]; [|done].
    by destruct (run client (f a)).
Qed.

Lemma run_print_names client records names :
  Forall2 (λ o name, display_name o = Returns name) records names →
  run client (print_names records) = (names, Returns tt).
Proof.
  induction 1 as [|o name records names Ho _ IH]; simpl; [done|].
  rewrite Ho; simpl. by rewrite IH.
Qed.

Lemma records_display rows out :
  Forall2 (λ r o, species_record r = Returns o) rows out →
  ∃ names, Forall2 (λ o name, display_name o = Returns name) out names.
Proof.
  induction 1 as [|r o rows out Hr _ [names IH]].
  - exists []. constructor.
  - apply species_record_inv in Hr
      as (d & t & id & name & rank & count & _ & _ & ->).
    eexists (_ :: names). constructor; [apply display_name_record|done].
Qed.

Lemma species_records_display resp out :
  species_records resp = Returns out →
  ∃ names, Forall2 (λ o name, display_name o = Returns name) out names.
Proof.
  unfold species_records. intros H.
  destruct (py_getitem resp "results") as [results|]; [|done]. simpl in H.
  destruct (py_iter results) as [rows|]; [|done]. simpl in H.
  apply mapM_Returns in H. by eapply records_display.
Qed.

Lemma run_fetch_species client lat lng a thr intr radius :
  area_to_radius_km a = Returns radius →
  run client (fetch_species lat lng a thr intr)
  = ([], resp ← client (query_params lat lng radius thr intr);
         species_records resp).
Proof.
  intros Hr. rewrite (fetch_species_returns_radius _ _ _ _ _ _ Hr); simpl.
  destruct (client _) as [resp|e]; simpl; [|done].
  by destruct (species_records resp).
Qed.

Lemma run_print {B} client v (f : unit → prog B) :
  run client (print v ≫= f)
  = let '(out, r) := run client (f tt) in (v :: out, r).
Proof. done. Qed.

(** The printing half of the entry point. *)
Lemma run_report client threatened introduced :
  run client (print threatened_header;; print_names threatened;;
              print introduced_header;; print_names introduced)
  = let '(out1, r1) := run client (print_names threatened) in
    match r1 with
    | Raises e => (threatened_header :: out1, Raises e)
    | Returns _ =>
        let '(out2, r2) := run client (print_names introduced) in
        (threatened_header :: out1 ++ introduced_header :: out2, r2)
    end.
Proof.
  rewrite run_print, run_bind.
  destruct (run client (print_names threatened)) as [out1 [[]|e]]; [|done].
  rewrite run_print.
  by destruct (run client (print_names introduced)) as [out2 r2].
Qed.

(** The entry point, played against a client. *)
Lemma run_main client :
  run client main
  = match (resp ← client threatened_query; species_records resp) with
    | Raises e => ([], Raises e)
    | Returns threatened =>
        match (resp ← client introduced_query; species_records resp) with
        | Raises e => ([], Raises e)
        | Returns introduced =>
            run client (print threatened_header;; print_names threatened;;
                        print introduced_header;; print_names introduced)
        end
    end.
Proof.
  unfold main. rewrite run_bind.
  rewrite (run_fetch_species client LAT LNG 10 (Some true) None
             (PrimFloat.sqrt (10 / math_pi)) eq_refl).
  fold threatened_query.
  destruct (_ ≫= _) as [threatened|e]; [|done].
  rewrite run_bind.
  rewrite (run_fetch_species client LAT LNG 10 None (Some true)
             (PrimFloat.sqrt (10 / math_pi)) eq_refl).
  fold introduced_query.
  destruct (_ ≫= _) as [introduced|e]; [|done].
  by destruct (run client _) as [out r].
Qed.

(** *** One record per row *)

(** C8: when the response's ["results"] is a list, a list [fetch_species]
    returns is as long as the rows, and its [i]-th element is the record of
    the [i]-th row: that row is a dict of the documented shape, and the
    element is the dict holding the row's taxon id, name, preferred common
    name (or [None]), rank and count under the five record keys.  Nothing is
    filtered, merged or reordered.  And [fetch_species] does return such a
    list as soon as every row has the documented shape. *)
Theorem fetch_species_one_record_per_row
    lat lng area_km2 thr intr kwargs k (d : gmap string pyval) rows :
  fetch_species lat lng area_km2 thr intr = GetCounts kwargs k →
  d !! "results" = Some (PyList rows) →
  (∀ out, k (PyDict d) = Ret out →
     length out = length rows
     ∧ ∀ i r, rows !! i = Some r →
         ∃ row t id name rank count,
           r = PyDict row
           ∧ row_fields row t id name rank count
           ∧ out !! i
             = Some (PyDict (record_of id name
                       (default PyNone (t !! "preferred_common_name"))
                       rank count)))
  ∧ ((∀ r, r ∈ rows →
        ∃ row t id name rank count,
          r = PyDict row ∧ row_fields row t id name rank count) →
     ∃ out, k (PyDict d) = Ret out).
Proof.
  intros (radius & _ & _ & ->)%fetch_species_call_inv Hres.
  rewrite (species_records_rows _ _ Hres). split.
  - intros out Hout%lift_Ret_inv%mapM_Returns. split.
    + symmetry. by eapply Forall2_length.
    + intros i r Hi.
      destruct (Forall2_lookup_l _ _ _ _ _ Hout Hi) as (o & Ho & Hr).
      apply species_record_inv in Hr
        as (row & t & id & name & rank & count & -> & Hrow & ->).
      by exists row, t, id, name, rank, count.
  - intros Hall.
    assert (∃ out, Forall2 (λ r o, species_record r = Returns o) rows out)
      as [out Hout].
    { clear Hres. induction rows as [|r rows IH].
      - exists []. constructor.
      - destruct (Hall r) as (row & t & id & name & rank & count & -> & Hrow);
          [by left|].
        destruct IH as [out Hout]; [intros r' Hr'; apply Hall; by right|].
        eexists (_ :: out). constructor; [|done].
        by apply species_record_row. }
    exists out. apply mapM_Returns in Hout. by rewrite Hout.
Qed.

Lemma fetch_species_one_record_per_row_witness :
  let k := λ resp, lift (species_records resp) in
  let rows := [PyDict lynx_row; PyDict fox_row; PyDict lynx_row] in
  let d := py_dict [("results", PyList rows)] in
  k (PyDict d) = Ret [PyDict lynx_record; PyDict fox_record; PyDict lynx_record]
  ∧ (∀ out, k (PyDict d) = Ret out →
       length out = 3%nat
       ∧ ∀ i r, rows !! i = Some r →
           ∃ row t id name rank count,
             r = PyDict row
             ∧ row_fields row t id name rank count
             ∧ out !! i
               = Some (PyDict (record_of id name
                         (default PyNone (t !! "preferred_common_name"))
                         rank count)))
  ∧ ((∀ r, r ∈ rows →
        ∃ row t id name rank count,
          r = PyDict row ∧ row_fields row t id name rank count) →
     ∃ out, k (PyDict d) = Ret out).
Proof.
  intros k rows d. split; [reflexivity|].
  apply (fetch_species_one_record_per_row LAT LNG 10 None None
           (query_params LAT LNG 0x1.c8bc5baae18d0p+0 None None) k d rows);
    reflexivity.
Defined.

(** *** The properties *)

Section further_properties.
#[local] Open Scope float_scope.

(** X1: [area_to_radius_km] raises nothing but [ValueError], and raises
    only for an [area_km2] that compares below zero; zeros, positive numbers,
    infinity and NaN all return. *)
Theorem area_to_radius_km_raises_inv area_km2 e :
  area_to_radius_km area_km2 = Raises e →
  e = ValueError ∧ (area_km2 <? 0) = true.
Proof. apply area_to_radius_km_raises_negative. Qed.

Lemma area_to_radius_km_raises_inv_witness :
  ValueError = ValueError ∧ (-1 <? 0) = true.
Proof. apply (area_to_radius_km_raises_inv (-1) ValueError). reflexivity. Defined.

(** X2: a NaN [area_km2] raises nothing: the radius is NaN and
    [fetch_species] calls the client with it. *)
Theorem area_to_radius_km_nan lat lng area_km2 thr intr :
  is_nan area_km2 = true →
  ∃ radius,
    is_nan radius = true
    ∧ area_to_radius_km area_km2 = Returns radius
    ∧ fetch_species lat lng area_km2 thr intr
      = GetCounts (query_params lat lng radius thr intr)
          (λ resp, lift (species_records resp)).
Proof.
  intros Hn%is_nan_true%div_pi_nan%math_sqrt_nan. destruct Hn as [Hr Hn].
  exists (sqrt (area_km2 / math_pi)). split; [done|]. split; [done|].
  by apply fetch_species_returns_radius.
Qed.

Lemma area_to_radius_km_nan_witness :
  ∃ radius,
    is_nan radius = true
    ∧ area_to_radius_km nan = Returns radius
    ∧ fetch_species LAT LNG nan None None
      = GetCounts (query_params LAT LNG radius None None)
          (λ resp, lift (species_records resp)).
Proof. apply (area_to_radius_km_nan LAT LNG nan None None). reflexivity. Defined.

(** X3: [fetch_species] either raises [ValueError] before any call, or
    calls the client exactly once and then returns or raises without a
    further call; and it never prints. *)
Theorem fetch_species_single_call lat lng area_km2 thr intr :
  (fetch_species lat lng area_km2 thr intr = Raise ValueError
   ∨ ∃ kwargs k,
       fetch_species lat lng area_km2 thr intr = GetCounts kwargs k
       ∧ ∀ resp, (∃ out, k resp = Ret out) ∨ (∃ e, k resp = Raise e))
  ∧ ∀ client, (run client (fetch_species lat lng area_km2 thr intr)).1 = [].
Proof.
  destruct (area_to_radius_km area_km2) as [radius|e] eqn:Hr.
  - rewrite (fetch_species_returns_radius _ _ _ _ _ _ Hr). split.
    + right. eexists _, _. split; [reflexivity|].
      intros resp. simpl. destruct (species_records resp) as [out|e]; simpl; [left|right]; eauto.
    + intros client; simpl.
      destruct (client _); [|done].
      by destruct (species_records _).
  - rewrite (fetch_species_raises_radius _ _ _ _ _ _ Hr).
    apply area_to_radius_km_raises_negative in Hr as [-> _].
    split; [by left|done].
Qed.

(** X4: the keyword arguments [fetch_species] passes hold exactly the six
    fixed keys and one key per filter that is not [None]; [lat] and [lng] are
    passed unchanged, the radius is the one [area_to_radius_km] returned, and
    the three constants are the same whatever the filters. *)
Theorem fetch_species_request lat lng area_km2 thr intr kwargs k :
  fetch_species lat lng area_km2 thr intr = GetCounts kwargs k →
  dom kwargs = request_keys thr intr
  ∧ kwargs !! "lat" = Some (PyFloat lat)
  ∧ kwargs !! "lng" = Some (PyFloat lng)
  ∧ (∃ radius, area_to_radius_km area_km2 = Returns radius
               ∧ kwargs !! "radius" = Some (PyFloat radius))
  ∧ kwargs !! "quality_grade" = Some (PyStr "research")
  ∧ kwargs !! "per_page" = Some (PyInt 200)
  ∧ kwargs !! "page" = Some (PyStr "all").
Proof.
  intros (radius & Hr & -> & _)%fetch_species_call_inv.
  pose proof (query_params_fixed lat lng radius thr intr)
    as (Hlat & Hlng & Hrad & Hq & Hpp & Hp).
  split; [apply query_params_dom|].
  repeat split; try done. by exists radius.
Qed.

Lemma fetch_species_request_witness :
  dom (query_params LAT LNG 0x1.c8bc5baae18d0p+0 (Some true) None)
  = request_keys (Some true) None.
Proof.
  apply (fetch_species_request LAT LNG 10 (Some true) None
           (query_params LAT LNG 0x1.c8bc5baae18d0p+0 (Some true) None)
           (λ resp, lift (species_records resp))).
  reflexivity.
Defined.

(** X5: a row has a record exactly when it is a dict with a dict
    ["taxon"] holding ["id"], ["name"] and ["rank"], and a ["count"]; the
    record then holds these four values and, as ["common_name"], the taxon's
    ["preferred_common_name"] or [None]. *)
Theorem species_record_returns_iff r o :
  species_record r = Returns o ↔
  ∃ d t id name rank count,
    r = PyDict d
    ∧ row_fields d t id name rank count
    ∧ o = PyDict (record_of id name
                    (default PyNone (t !! "preferred_common_name")) rank count).
Proof.
  split; [apply species_record_inv|].
  intros (d & t & id & name & rank & count & -> & Hrow & ->).
  by apply species_record_row.
Qed.

Lemma species_record_returns_iff_witness :
  species_record (PyDict lynx_row) = Returns (PyDict lynx_record).
Proof.
  apply (proj2 (species_record_returns_iff (PyDict lynx_row) (PyDict lynx_record))).
  exists lynx_row, lynx_taxon, (PyInt 7), (PyStr "Lynx lynx"),
    (PyStr "species"), (PyInt 2).
  repeat split.
Defined.

(** X6: every element of a list [fetch_species] returns is a dict with
    exactly the five keys of a record, ["common_name"] included. *)
Theorem fetch_species_record_shape
    lat lng area_km2 thr intr kwargs k resp out o :
  fetch_species lat lng area_km2 thr intr = GetCounts kwargs k →
  k resp = Ret out →
  o ∈ out →
  ∃ record : gmap string pyval,
    o = PyDict record
    ∧ dom record = record_keys.
Proof.
  intros (radius & _ & _ & ->)%fetch_species_call_inv Hout%lift_Ret_inv Ho.
  unfold species_records in Hout.
  destruct (py_getitem resp "results") as [results|]; [|done]. simpl in Hout.
  destruct (py_iter results) as [rows|]; [|done]. simpl in Hout.
  apply mapM_Returns in Hout.
  apply list_elem_of_lookup in Ho as [i Hi].
  destruct (Forall2_lookup_r _ _ _ _ _ Hout Hi) as (r & _ & Hr).
  apply species_record_inv in Hr as (d & t & id & name & rank & count & _ & _ & ->).
  eexists. split; [done|]. apply record_of_dom.
Qed.

Lemma fetch_species_record_shape_witness :
  ∃ record : gmap string pyval,
    PyDict lynx_record = PyDict record ∧ dom record = record_keys.
Proof.
  apply (fetch_species_record_shape LAT LNG 10 None None
           (query_params LAT LNG 0x1.c8bc5baae18d0p+0 None None)
           (λ resp, lift (species_records resp))
           (PyDict (py_dict [("results", PyList [PyDict lynx_row])]))
           [PyDict lynx_record] (PyDict lynx_record)).
  - reflexivity.
  - reflexivity.
  - apply list_elem_of_here.
Defined.

(** X7: when the rows before some row all have a record and that row
    raises, [fetch_species] raises that row's exception: no partial list is
    returned and the rows after it are not looked at. *)
Theorem fetch_species_first_bad_row
    lat lng area_km2 thr intr kwargs k
    (d : gmap string pyval) good bad rest e :
  fetch_species lat lng area_km2 thr intr = GetCounts kwargs k →
  d !! "results" = Some (PyList (good ++ bad :: rest)) →
  (∀ r, r ∈ good → ∃ o, species_record r = Returns o) →
  species_record bad = Raises e →
  k (PyDict d) = Raise e.
Proof.
  intros (radius & _ & _ & ->)%fetch_species_call_inv Hres Hgood Hbad.
  rewrite (species_records_rows _ _ Hres).
  rewrite (mapM_Raises species_record good rest bad e); [done| |done].
  by apply Forall_forall.
Qed.

Lemma fetch_species_first_bad_row_witness :
  lift (species_records
          (PyDict (py_dict [("results",
             PyList [PyDict lynx_row; PyDict no_count_row; PyNone])])))
  = Raise (KeyError "count").
Proof.
  apply (fetch_species_first_bad_row LAT LNG 10 None None
           (query_params LAT LNG 0x1.c8bc5baae18d0p+0 None None)
           (λ resp, lift (species_records resp))
           (py_dict [("results",
              PyList [PyDict lynx_row; PyDict no_count_row; PyNone])])
           [PyDict lynx_row] (PyDict no_count_row) [PyNone]
           (KeyError "count")).
  - reflexivity.
  - reflexivity.
  - intros r ->%list_elem_of_singleton. by eexists.
  - reflexivity.
Defined.

(** X8: a row with a field missing raises [KeyError] for the first
    missing one in the order ["taxon"], ["id"], ["name"], ["rank"],
    ["count"], and a row whose ["taxon"] is not a dict raises
    [TypeError]. *)
Theorem species_record_missing_field (r : gmap string pyval) :
  (r !! "taxon" = None →
     species_record (PyDict r) = Raises (KeyError "taxon"))
  ∧ (∀ t : gmap string pyval, r !! "taxon" = Some (PyDict t) →
       (t !! "id" = None →
          species_record (PyDict r) = Raises (KeyError "id"))
       ∧ (is_Some (t !! "id") → t !! "name" = None →
          species_record (PyDict r) = Raises (KeyError "name"))
       ∧ (is_Some (t !! "id") → is_Some (t !! "name") → t !! "rank" = None →
          species_record (PyDict r) = Raises (KeyError "rank"))
       ∧ (is_Some (t !! "id") → is_Some (t !! "name") →
          is_Some (t !! "rank") → r !! "count" = None →
          species_record (PyDict r) = Raises (KeyError "count")))
  ∧ (∀ v, r !! "taxon" = Some v → (∀ t, v ≠ PyDict t) →
       species_record (PyDict r) = Raises TypeError).
Proof.
  unfold species_record; simpl. split; [|split].
  - by intros ->.
  - intros t ->; simpl. repeat split.
    + by intros ->.
    + by intros [? ->] ->.
    + by intros [? ->] [? ->] ->.
    + by intros [? ->] [? ->] [? ->] ->.
  - intros v -> Hv; simpl. destruct v; try done. by destruct (Hv d).
Qed.

Lemma species_record_missing_field_witness :
  species_record (PyDict ∅) = Raises (KeyError "taxon").
Proof. apply (proj1 (species_record_missing_field ∅)). reflexivity. Defined.

(** X9: after the call, a response that is not a dict raises [TypeError],
    one without ["results"] raises [KeyError], one whose ["results"] cannot
    be iterated raises [TypeError], and an empty ["results"] list gives the
    empty list. *)
Theorem fetch_species_malformed_response lat lng area_km2 thr intr kwargs k :
  fetch_species lat lng area_km2 thr intr = GetCounts kwargs k →
  (∀ resp, (∀ d, resp ≠ PyDict d) → k resp = Raise TypeError)
  ∧ (∀ d : gmap string pyval, d !! "results" = None →
       k (PyDict d) = Raise (KeyError "results"))
  ∧ (∀ (d : gmap string pyval) results, d !! "results" = Some results →
       (∀ l, results ≠ PyList l) → (∀ s, results ≠ PyStr s) →
       (∀ m, results ≠ PyDict m) →
       k (PyDict d) = Raise TypeError)
  ∧ (∀ d : gmap string pyval, d !! "results" = Some (PyList []) →
       k (PyDict d) = Ret []).
Proof.
  intros (radius & _ & _ & ->)%fetch_species_call_inv.
  unfold species_records. repeat split.
  - intros resp Hresp. destruct resp; try done. by destruct (Hresp d).
  - intros d Hd; simpl. by rewrite Hd.
  - intros d results Hd Hl Hs Hm; simpl. rewrite Hd; simpl.
    destruct results; try done.
    + by destruct (Hs s).
    + by destruct (Hl l).
    + by destruct (Hm d0).
  - intros d Hd; simpl. by rewrite Hd.
Qed.

Lemma fetch_species_malformed_response_witness :
  lift (species_records (PyDict ∅)) = Raise (KeyError "results").
Proof.
  apply (proj1 (proj2 (fetch_species_malformed_response LAT LNG 10 None None
           (query_params LAT LNG 0x1.c8bc5baae18d0p+0 None None)
           (λ resp, lift (species_records resp)) eq_refl)) ∅).
  reflexivity.
Defined.

(** X10: for a record with a truthy ["common_name"] the loop prints that
    value and does not read ["scientific_name"], which may be missing. *)
Theorem print_names_truthy_common_name
    (s : gmap string pyval) common_name rest :
  s !! "common_name" = Some common_name →
  py_truthy common_name = true →
  print_names (PyDict s :: rest) = Print common_name (print_names rest).
Proof.
  intros Hc Ht. apply print_names_cons. by apply display_name_truthy.
Qed.

Lemma print_names_truthy_common_name_witness :
  print_names [PyDict (py_dict [("common_name", PyStr "Eurasian lynx")])]
  = Print (PyStr "Eurasian lynx") (Ret tt).
Proof.
  apply (print_names_truthy_common_name
           (py_dict [("common_name", PyStr "Eurasian lynx")])
           (PyStr "Eurasian lynx") []); reflexivity.
Defined.

(** X11: the loop raises [KeyError] on a record without ["common_name"],
    and on one with a falsy ["common_name"] and no ["scientific_name"];
    nothing is printed for that record or after it. *)
Theorem print_names_missing_key (s : gmap string pyval) rest :
  (s !! "common_name" = None →
     print_names (PyDict s :: rest) = Raise (KeyError "common_name"))
  ∧ (∀ common_name, s !! "common_name" = Some common_name →
       py_truthy common_name = false →
       s !! "scientific_name" = None →
       print_names (PyDict s :: rest) = Raise (KeyError "scientific_name")).
Proof.
  split.
  - intros H. simpl. unfold display_name; simpl. by rewrite H.
  - intros cn Hc Hf Hs. simpl. unfold display_name; simpl.
    rewrite Hc; simpl. by rewrite Hf, Hs.
Qed.

Lemma print_names_missing_key_witness :
  print_names [PyDict (py_dict [("common_name", PyNone)])]
  = Raise (KeyError "scientific_name").
Proof.
  apply (proj2 (print_names_missing_key
           (py_dict [("common_name", PyNone)]) []) PyNone); reflexivity.
Defined.

(** X12: on a list [fetch_species] returned, the printing loop never
    raises: it prints one line per record, in order, the record's
    ["common_name"] if truthy and its ["scientific_name"] otherwise. *)
Theorem print_names_fetched_records
    client lat lng area_km2 thr intr kwargs k resp out :
  fetch_species lat lng area_km2 thr intr = GetCounts kwargs k →
  k resp = Ret out →
  ∃ names,
    length names = length out
    ∧ run client (print_names out) = (names, Returns tt)
    ∧ ∀ i o, out !! i = Some o →
        ∃ record common_name scientific_name,
          o = PyDict record
          ∧ record !! "common_name" = Some common_name
          ∧ record !! "scientific_name" = Some scientific_name
          ∧ names !! i = Some (shown_name common_name scientific_name).
Proof.
  intros (radius & _ & _ & ->)%fetch_species_call_inv Hout%lift_Ret_inv.
  unfold species_records in Hout.
  destruct (py_getitem resp "results") as [results|]; [|done]. simpl in Hout.
  destruct (py_iter results) as [rows|]; [|done]. simpl in Hout.
  apply mapM_Returns in Hout.
  destruct (records_display _ _ Hout) as [names Hnames].
  exists names. split; [symmetry; by eapply Forall2_length|].
  split; [by apply run_print_names|].
  intros i o Hi.
  destruct (Forall2_lookup_r _ _ _ _ _ Hout Hi) as (r & _ & Hr).
  apply species_record_inv in Hr
    as (d & t & id & name & rank & count & _ & _ & ->).
  destruct (Forall2_lookup_l _ _ _ _ _ Hnames Hi) as (n & Hn & Hd).
  rewrite display_name_record in Hd. injection Hd as <-.
  pose proof (record_of_lookup id name
    (default PyNone (t !! "preferred_common_name")) rank count)
    as (_ & Hs & Hc & _).
  eexists _, _, _. split; [done|]. split; [exact Hc|]. split; [exact Hs|done].
Qed.

Lemma print_names_fetched_records_witness :
  ∃ names,
    length names = 1%nat
    ∧ run (λ _, Returns PyNone) (print_names [PyDict lynx_record])
      = (names, Returns tt)
    ∧ ∀ i o, [PyDict lynx_record] !! i = Some o →
        ∃ record common_name scientific_name,
          o = PyDict record
          ∧ record !! "common_name" = Some common_name
          ∧ record !! "scientific_name" = Some scientific_name
          ∧ names !! i = Some (shown_name common_name scientific_name).
Proof.
  apply (print_names_fetched_records (λ _, Returns PyNone)
           LAT LNG 10 None None
           (query_params LAT LNG 0x1.c8bc5baae18d0p+0 None None)
           (λ resp, lift (species_records resp))
           (PyDict (py_dict [("results", PyList [PyDict lynx_row])]))
           [PyDict lynx_record]); reflexivity.
Defined.

(** X13: when the client answers both requests of the entry point with
    responses that normalise, the entry point prints the first header, one
    name per threatened record, the second header and one name per
    introduced record, and ends normally. *)
Theorem main_output client resp1 resp2 threatened introduced :
  client threatened_query = Returns resp1 →
  client introduced_query = Returns resp2 →
  species_records resp1 = Returns threatened →
  species_records resp2 = Returns introduced →
  ∃ names1 names2,
    Forall2 (λ o name, display_name o = Returns name) threatened names1
    ∧ Forall2 (λ o name, display_name o = Returns name) introduced names2
    ∧ run client main
      = (threatened_header :: names1 ++ introduced_header :: names2,
         Returns tt).
Proof.
  intros Hc1 Hc2 H1 H2.
  destruct (species_records_display _ _ H1) as [names1 Hn1].
  destruct (species_records_display _ _ H2) as [names2 Hn2].
  exists names1, names2. split; [done|]. split; [done|].
  rewrite run_main, Hc1, Hc2. cbn [mbind result_bind].
  rewrite H1, H2, run_report.
  by rewrite (run_print_names _ _ _ Hn1), (run_print_names _ _ _ Hn2).
Qed.

Lemma main_output_witness :
  ∃ names1 names2,
    Forall2 (λ o name, display_name o = Returns name) mock_records names1
    ∧ Forall2 (λ o name, display_name o = Returns name) mock_records names2
    ∧ run (λ _, Returns mock_response) main
      = (threatened_header :: names1 ++ introduced_header :: names2,
         Returns tt).
Proof.
  apply (main_output (λ _, Returns mock_response)
           mock_response mock_response mock_records mock_records);
    reflexivity.
Defined.

(** X14: when either query of the entry point fails (the client raises,
    or its response does not normalise), the entry point ends with that
    exception and has printed nothing, the first header included. *)
Theorem main_prints_nothing_on_failure client e :
  (resp ← client threatened_query; species_records resp) = Raises e
  ∨ (∃ threatened,
       (resp ← client threatened_query; species_records resp)
       = Returns threatened
       ∧ (resp ← client introduced_query; species_records resp) = Raises e) →
  run client main = ([], Raises e).
Proof.
  intros [H|(threatened & H1 & H2)]; rewrite run_main.
  - by rewrite H.
  - by rewrite H1, H2.
Qed.

Lemma main_prints_nothing_on_failure_witness :
  run (λ _, Returns PyNone) main = ([], Raises TypeError).
Proof.
  apply (main_prints_nothing_on_failure (λ _, Returns PyNone) TypeError).
  left. reflexivity.
Defined.

(** X15: for every [area_km2 > 0] other than [5e-324], the positive float
    of least magnitude, the radius compares above zero; for [5e-324] the
    quotient underflows and the radius is [0.0]. *)
Theorem area_to_radius_km_positive :
  (∀ area_km2 : float,
     (0 <? area_km2) = true →
     area_km2 ≠ 0x1p-1074 →
     ∃ radius,
       area_to_radius_km area_km2 = Returns radius
       ∧ (0 <? radius) = true)
  ∧ area_to_radius_km 0x1p-1074 = Returns 0.
Proof.
  split; [|reflexivity].
  intros a Hpos Hne. exists (sqrt (a / math_pi)). split.
  - apply math_sqrt_nonneg.
    pose proof (div_pi_positive a Hpos Hne) as Hq.
    by destruct (Prim2SF (a / math_pi)) as [|[]| |[]].
  - by apply ltb_zero_positive, sqrt_positive, div_pi_positive.
Qed.

Lemma area_to_radius_km_positive_witness :
  ∃ radius,
    area_to_radius_km 10 = Returns radius ∧ (0 <? radius) = true.
Proof.
  apply (proj1 area_to_radius_km_positive 10); [reflexivity|].
  intros H. by apply (f_equal Prim2SF) in H.
Defined.

End further_properties.
